(** * bench_img.py: the stochastic-drift benchmark chart

    A shallow embedding of the chart script [bench_img.py] and the
    properties of the data it synthesises and of the drawing calls it
    issues.

    Modelling conventions.
    - A float64 is an exact rational ([Q]): [+], [*] and [**] are the
      field operations and rounding is left out of the model.  A NumPy
      integer is a [Z].  A one-dimensional array is a [list].
    - NumPy's global generator is an explicit state.  The generator itself
      (MT19937 and the Gaussian sampler behind [np.random.normal]) belongs
      to NumPy, so it is a parameter of the development: a type of states,
      the state produced by seeding, and the function drawing one standard
      Gaussian sample.
    - Matplotlib is an output device: every call on [plt] or [ax] is
      recorded, with all its arguments, in the order the script makes it.
    - The script is a computation in a monad with the generator state, the
      log of drawing calls, and failure (a NumPy shape error). *)

From Stdlib Require Import ZArith QArith Qpower Qabs List String Bool Lia Lqa.
Import ListNotations.
Open Scope string_scope.
Open Scope list_scope.
Open Scope Z_scope.

(** ** Values passed to the plotting library *)

#[warnings="-register-all"]
Inductive value : Type :=
| VInt (z : Z)
| VFloat (q : Q)
| VStr (s : string)
| VBool (b : bool)
| VInts (l : list Z)
| VFloats (l : list Q)
| VTuple (a b : value)
| VDict (kv : list (string * value)).

(** [obj.meth(args, kwargs)] with [obj] one of [plt] and [ax]. *)
Record call : Type := Call {
  obj : string;
  meth : string;
  args : list value;
  kwargs : list (string * value)
}.

Fixpoint lookup (k : string) (kv : list (string * value)) : option value :=
  match kv with
  | [] => None
  | (k', v) :: rest => if String.eqb k k' then Some v else lookup k rest
  end.

(** ** NumPy array operations used by the script *)

(** [np.arange(start, stop)] on integers. *)
Definition np_arange (start stop : Z) : list Z :=
  map (fun i => start + Z.of_nat i) (seq 0 (Z.to_nat (stop - start))).

(** [base ** xs] for a float scalar and an integer array. *)
Definition np_power (base : Q) (xs : list Z) : list Q :=
  map (fun e => base ^ e)%Q xs.

(** [k * xs] for a scalar and an array. *)
Definition np_scale (k : Q) (xs : list Q) : list Q :=
  map (fun x => k * x)%Q xs.

Fixpoint zip_add (xs ys : list Q) : list Q :=
  match xs, ys with
  | x :: xs', y :: ys' => (x + y)%Q :: zip_add xs' ys'
  | _, _ => []
  end.

(** [xs + ys] for two one-dimensional arrays: element by element when the
    lengths agree, the single element broadcast when one side has length
    one, a shape error ([None]) otherwise. *)
Definition np_add (xs ys : list Q) : option (list Q) :=
  if Nat.eqb (List.length xs) (List.length ys) then Some (zip_add xs ys)
  else match xs, ys with
       | [x], _ => Some (map (fun y => x + y)%Q ys)
       | _, [y] => Some (map (fun x => x + y)%Q xs)
       | _, _ => None
       end.

Definition Qltb (a b : Q) : bool := negb (Qle_bool b a).

(** The larger and the smaller of two scalars, by the comparisons
    [np.clip] makes: [a > b ? a : b] and [a < b ? a : b]. *)
Definition maximum (a b : Q) : Q := if Qltb b a then a else b.
Definition minimum (a b : Q) : Q := if Qltb a b then a else b.

(** The noise-free decay curve, [100 * (decay_rate ** steps)]. *)
Definition decay_term (decay_rate : Q) (steps : list Z) : list Q :=
  np_scale 100 (np_power decay_rate steps).

(** [np.clip] on one element: [minimum(maximum(x, a_min), a_max)]. *)
Definition clip (x a_min a_max : Q) : Q := minimum (maximum x a_min) a_max.

(** [np.clip(xs, a_min, a_max)]. *)
Definition np_clip (xs : list Q) (a_min a_max : Q) : list Q :=
  map (fun x => clip x a_min a_max) xs.

(** [np.full(n, v)]. *)
Definition np_full (n : nat) (v : Q) : list Q := repeat v n.

(** A toy generator, used to run the script on concrete numbers: a linear
    congruential state and a "Gaussian" sample in {-3, ..., 3}. *)
Module ToyGen.
Definition state : Type := Z.
Definition seed (s : Z) : state := s mod 2147483648.
Definition gauss (st : state) : Q * state :=
  let st' := (1103515245 * st + 12345) mod 2147483648 in
  (inject_Z ((st' / 65536) mod 7 - 3), st').
End ToyGen.

(** A generator that replays a given list of standard samples (0 once the
    list is used up): any noise sequence can be fed to the script. *)
Module Replay.
Definition state : Type := list Q.
Definition seed (samples : list Q) (_ : Z) : state := samples.
Definition gauss (st : state) : Q * state := (hd 0%Q st, tl st).
End Replay.

(** ** Reading the log of drawing calls *)

Definition is_call (o m : string) (c : call) : bool :=
  String.eqb (obj c) o && String.eqb (meth c) m.

Definition calls_to (o m : string) (log : list call) : list call :=
  filter (is_call o m) log.

(** The step at which a [scatter] call puts its marker, when the call is
    [scatter(x, 100, ...)]. *)
Definition marker_index (c : call) : option Z :=
  match args c with
  | [VInt x; VInt y] => if y =? 100 then Some x else None
  | _ => None
  end.

(** The step an [annotate] call points at, when the call has a text, an
    arrow ([arrowprops] with an [arrowstyle]) and [xy = (x, 100)]. *)
Definition annotation_index (c : call) : option Z :=
  match args c, lookup "xy" (kwargs c), lookup "arrowprops" (kwargs c) with
  | [VStr _], Some (VTuple (VInt x) (VInt y)), Some (VDict props) =>
      match lookup "arrowstyle" props with
      | Some (VStr _) => if y =? 100 then Some x else None
      | _ => None
      end
  | _, _, _ => None
  end.

(** File name and resolution of a [savefig(name, dpi=d)] call. *)
Definition saved_image (c : call) : option (string * Z) :=
  match args c, lookup "dpi" (kwargs c) with
  | [VStr name], Some (VInt d) => Some (name, d)
  | _, _ => None
  end.

(** Width and height, in inches, of a [subplots(figsize=(w, h))] call. *)
Definition canvas_size (c : call) : option (Z * Z) :=
  match lookup "figsize" (kwargs c) with
  | Some (VTuple (VInt w) (VInt h)) => Some (w, h)
  | _ => None
  end.

(** The x data of a [plot(x, y, ...)] call. *)
Definition plot_x (c : call) : option value :=
  match args c with
  | [x; _] => Some x
  | _ => None
  end.

(** The two bounds of a [set_xlim(lo, hi)] or [set_ylim(lo, hi)] call. *)
Definition axis_limits (c : call) : option (Z * Z) :=
  match args c with
  | [VInt lo; VInt hi] => Some (lo, hi)
  | _ => None
  end.

(** The height of an [axhline(y=...)] call. *)
Definition threshold_level (c : call) : option Z :=
  match lookup "y" (kwargs c) with
  | Some (VInt y) => Some y
  | _ => None
  end.

(** The y data of a [plot(x, y, ...)] call. *)
Definition plot_y (c : call) : option value :=
  match args c with
  | [_; y] => Some y
  | _ => None
  end.

(** The x data and the two boundaries of a [fill_between(x, y1, y2, ...)]
    call. *)
Definition fill_band (c : call) : option (value * value * value) :=
  match args c with
  | [x; y1; y2] => Some (x, y1, y2)
  | _ => None
  end.

(** Where an [annotate] call puts its text, [xytext = (x, y)]. *)
Definition annotation_text_at (c : call) : option (Z * Z) :=
  match lookup "xytext" (kwargs c) with
  | Some (VTuple (VInt x) (VInt y)) => Some (x, y)
  | _ => None
  end.

Fixpoint ends_with (suffix s : string) : bool :=
  String.eqb suffix s ||
  match s with
  | EmptyString => false
  | String _ s' => ends_with suffix s'
  end.

(** ** The script *)

(** The module-level variables the script leaves behind. *)
Record globals : Type := Globals {
  steps : list Z;
  decay_rate : Q;
  drift_noise : list Q;
  standard_agent_retention : list Q;
  seu_claude_retention : list Q;
  crash_indices : list Z
}.

(** The data with another list of crash indices. *)
Definition with_crash_indices (g : globals) (cs : list Z) : globals :=
  Globals (steps g) (decay_rate g) (drift_noise g)
    (standard_agent_retention g) (seu_claude_retention g) cs.

Definition nl : string := String (Ascii.ascii_of_nat 10) EmptyString.

Section Script.

(** NumPy's legacy global generator: the state type, the state that
    [np.random.seed(s)] installs (a function of the seed alone), and one
    standard Gaussian draw, which returns the sample and the next state. *)
Variable rng : Type.
Variable seed : Z -> rng.
Variable gauss : rng -> Q * rng.

(** [size] successive draws of [loc + scale * gauss], in order. *)
Fixpoint draws (loc scale : Q) (size : nat) (st : rng) : list Q * rng :=
  match size with
  | O => ([], st)
  | S n =>
      let g := gauss st in
      let rest := draws loc scale n (snd g) in
      ((loc + scale * fst g)%Q :: fst rest, snd rest)
  end.

(** A script computation: from the generator state to a result, the next
    generator state and the drawing calls made, or [None] when an
    exception ends the script. *)
Definition M (A : Type) : Type := rng -> option (A * rng * list call).

Definition ret {A} (a : A) : M A := fun st => Some (a, st, []).

Definition bind {A B} (m : M A) (k : A -> M B) : M B :=
  fun st =>
    match m st with
    | None => None
    | Some (a, st1, out1) =>
        match k a st1 with
        | None => None
        | Some (b, st2, out2) => Some (b, st2, out1 ++ out2)
        end
    end.

Notation "x <- m ;; k" := (bind m (fun x => k))
  (at level 61, m at next level, right associativity).
Notation "m ;; k" := (bind m (fun _ => k))
  (at level 61, right associativity).

(** [np.random.seed(s)]. *)
Definition np_random_seed (s : Z) : M unit :=
  fun _ => Some (tt, seed s, []).

(** [np.random.normal(loc, scale, size=size)]. *)
Definition np_random_normal (loc scale : Q) (size : nat) : M (list Q) :=
  fun st => let r := draws loc scale size st in Some (fst r, snd r, []).

(** A NumPy operation that may raise. *)
Definition np_try {A} (r : option A) : M A :=
  fun st => match r with Some a => Some (a, st, []) | None => None end.

(** A call on the plotting library. *)
Definition emit (o m : string) (a : list value) (kw : list (string * value))
  : M unit :=
  fun st => Some (tt, st, [Call o m a kw]).

Fixpoint for_each {A} (xs : list A) (body : A -> M unit) : M unit :=
  match xs with
  | [] => ret tt
  | x :: rest => body x ;; for_each rest body
  end.

Definition when (b : bool) (m : M unit) : M unit :=
  if b then m else ret tt.

(** Lines 8 to 21: the data. *)
Definition synthesize : M globals :=
  let steps := np_arange 0 51 in
  np_random_seed 42 ;;
  let decay_rate := 0.96%Q in
  drift_noise <- np_random_normal 0 2.5 (List.length steps) ;;
  standard_agent_retention <-
    np_try (np_add (decay_term decay_rate steps) drift_noise) ;;
  let standard_agent_retention := np_clip standard_agent_retention 0 100 in
  let seu_claude_retention := np_full (List.length steps) 100.0 in
  let crash_indices := [10; 22; 35; 42] in
  ret (Globals steps decay_rate drift_noise standard_agent_retention
         seu_claude_retention crash_indices).

(** Lines 24 to 59: the chart. *)
Definition render (g : globals) : M unit :=
  emit "plt" "subplots" [] [("figsize", VTuple (VInt 12) (VInt 7))] ;;
  emit "ax" "plot"
    [VInts (steps g); VFloats (standard_agent_retention g)]
    [("label", VStr "Standard Agent (Context Decay)");
     ("color", VStr "#e74c3c"); ("linewidth", VInt 2);
     ("linestyle", VStr "--")] ;;
  emit "ax" "fill_between"
    [VInts (steps g); VFloats (standard_agent_retention g); VInt 0]
    [("color", VStr "#e74c3c"); ("alpha", VFloat 0.1)] ;;
  emit "ax" "plot"
    [VInts (steps g); VFloats (seu_claude_retention g)]
    [("label", VStr "Seu-Claude v2 (Persistent DAG)");
     ("color", VStr "#27ae60"); ("linewidth", VInt 3)] ;;
  for_each (crash_indices g) (fun crash =>
    emit "ax" "scatter" [VInt crash; VInt 100]
      [("color", VStr "#f39c12"); ("s", VInt 100); ("zorder", VInt 5);
       ("marker", VStr "X"); ("edgecolors", VStr "white")] ;;
    when (crash =? 10)
      (emit "ax" "annotate"
         [VStr ("Crash & Recover" ++ nl ++ "(No State Loss)")%string]
         [("xy", VTuple (VInt crash) (VInt 100));
          ("xytext", VTuple (VInt (crash + 2)) (VInt 85));
          ("arrowprops",
           VDict [("facecolor", VStr "#333"); ("arrowstyle", VStr "->")]);
          ("fontsize", VInt 10); ("fontweight", VStr "bold");
          ("color", VStr "#333")])) ;;
  emit "ax" "set_title"
    [VStr "Stochastic Drift vs. Deterministic State (50-Step Task)"]
    [("fontsize", VInt 16); ("fontweight", VStr "bold"); ("pad", VInt 20)] ;;
  emit "ax" "set_xlabel" [VStr "Execution Step (Task Depth)"]
    [("fontsize", VInt 12)] ;;
  emit "ax" "set_ylabel" [VStr "Effective Context Retention (%)"]
    [("fontsize", VInt 12)] ;;
  emit "ax" "set_xlim" [VInt 0; VInt 50] [] ;;
  emit "ax" "set_ylim" [VInt 0; VInt 105] [] ;;
  emit "ax" "axhline" []
    [("y", VInt 60); ("color", VStr "gray"); ("linestyle", VStr ":");
     ("alpha", VFloat 0.5)] ;;
  emit "ax" "text"
    [VInt 1; VInt 62; VStr "Hallucination Threshold (Unreliable Zone)"]
    [("color", VStr "gray"); ("fontsize", VInt 10);
     ("style", VStr "italic")] ;;
  emit "ax" "legend" []
    [("loc", VStr "lower left"); ("frameon", VBool true);
     ("fontsize", VInt 11); ("shadow", VBool true)] ;;
  emit "plt" "tight_layout" [] [] ;;
  emit "plt" "savefig" [VStr "stochastic_drift_benchmark.png"]
    [("dpi", VInt 300)].

(** The data generated twice in one run, as a reproducibility test does. *)
Definition synthesize_twice : M (globals * globals) :=
  g1 <- synthesize ;;
  g2 <- synthesize ;;
  ret (g1, g2).

(** The whole script, top to bottom. *)
Definition main : M globals :=
  emit "plt" "style.use" [VStr "seaborn-v0_8-whitegrid"] [] ;;
  g <- synthesize ;;
  render g ;;
  ret g.

(** ** Lemmas on the array operations *)

Lemma draws_length loc scale n st :
  List.length (fst (draws loc scale n st)) = n.
Proof.
  revert st; induction n as [|n IH]; intros st; simpl; [reflexivity|].
  now rewrite IH.
Qed.

Lemma np_arange_length a b : List.length (np_arange a b) = Z.to_nat (b - a).
Proof. unfold np_arange. now rewrite length_map, length_seq. Qed.

Lemma np_arange_nth a b (i : nat) :
  (i < Z.to_nat (b - a))%nat ->
  nth_error (np_arange a b) i = Some (a + Z.of_nat i).
Proof.
  intros Hi. unfold np_arange.
  rewrite nth_error_map, nth_error_seq.
  apply Nat.ltb_lt in Hi. now rewrite Hi.
Qed.

Lemma decay_term_length r xs : List.length (decay_term r xs) = List.length xs.
Proof. unfold decay_term, np_scale, np_power. now rewrite !length_map. Qed.

Lemma decay_term_nth r xs i e :
  nth_error xs i = Some e ->
  nth_error (decay_term r xs) i = Some (100 * r ^ e)%Q.
Proof.
  intros H. unfold decay_term, np_scale, np_power.
  now rewrite !nth_error_map, H.
Qed.

Lemma zip_add_length xs ys :
  List.length xs = List.length ys ->
  List.length (zip_add xs ys) = List.length xs.
Proof.
  revert ys; induction xs as [|x xs IH]; intros [|y ys] H; simpl in *;
    try discriminate; [reflexivity|].
  f_equal. apply IH. congruence.
Qed.

Lemma zip_add_nth xs ys i x y :
  nth_error xs i = Some x -> nth_error ys i = Some y ->
  nth_error (zip_add xs ys) i = Some (x + y)%Q.
Proof.
  revert ys i; induction xs as [|x0 xs IH]; intros [|y0 ys] [|i] Hx Hy;
    simpl in *; try discriminate.
  - congruence.
  - now apply IH.
Qed.

Lemma np_add_same_length xs ys :
  List.length xs = List.length ys -> np_add xs ys = Some (zip_add xs ys).
Proof.
  intros H. unfold np_add. apply Nat.eqb_eq in H. now rewrite H.
Qed.

Lemma np_clip_length xs lo hi : List.length (np_clip xs lo hi) = List.length xs.
Proof. unfold np_clip. apply length_map. Qed.

Lemma np_clip_nth xs lo hi i x :
  nth_error xs i = Some x ->
  nth_error (np_clip xs lo hi) i = Some (clip x lo hi).
Proof. intros H. unfold np_clip. now rewrite nth_error_map, H. Qed.

Lemma np_full_nth n v i : (i < n)%nat -> nth_error (np_full n v) i = Some v.
Proof.
  intros H. unfold np_full. now apply nth_error_repeat.
Qed.

Lemma Qltb_true a b : Qltb a b = true <-> (a < b)%Q.
Proof.
  unfold Qltb. rewrite negb_true_iff, <- not_true_iff_false, Qle_bool_iff.
  split; [apply Qnot_le_lt | apply Qlt_not_le].
Qed.

Lemma Qltb_false a b : Qltb a b = false <-> (b <= a)%Q.
Proof.
  unfold Qltb. now rewrite negb_false_iff, Qle_bool_iff.
Qed.

Lemma clip_bounds x lo hi : (lo <= hi)%Q -> (lo <= clip x lo hi <= hi)%Q.
Proof.
  intros Hlh. unfold clip, minimum, maximum.
  destruct (Qltb lo x) eqn:E1.
  - apply Qltb_true in E1.
    destruct (Qltb x hi) eqn:E2.
    + apply Qltb_true in E2. split; now apply Qlt_le_weak.
    + split; [exact Hlh | apply Qle_refl].
  - destruct (Qltb lo hi) eqn:E2.
    + apply Qltb_true in E2. split; [apply Qle_refl | now apply Qlt_le_weak].
    + split; [exact Hlh | apply Qle_refl].
Qed.

Lemma clip_in_range x lo hi :
  (lo <= x)%Q -> (x <= hi)%Q -> (clip x lo hi == x)%Q.
Proof.
  intros H1 H2. unfold clip, minimum, maximum.
  destruct (Qltb lo x) eqn:E1.
  - destruct (Qltb x hi) eqn:E2; [reflexivity|].
    apply Qltb_false in E2. now apply Qle_antisym.
  - apply Qltb_false in E1.
    assert (Hx : (x == lo)%Q) by now apply Qle_antisym.
    destruct (Qltb lo hi) eqn:E2; [now symmetry|].
    apply Qltb_false in E2. rewrite Hx. apply Qle_antisym; [exact E2|].
    now rewrite <- Hx.
Qed.

(** ** Running the script *)

(** The generator state after [np.random.seed(42)] and the 51 draws. *)
Local Abbreviation noise42 := (fst (draws 0 2.5 51 (seed 42))).
Local Abbreviation state42 := (snd (draws 0 2.5 51 (seed 42))).

Lemma synthesize_run st :
  synthesize st =
  Some (Globals (np_arange 0 51) 0.96 noise42
          (np_clip (zip_add (decay_term 0.96 (np_arange 0 51)) noise42) 0 100)
          (np_full 51 100.0) [10; 22; 35; 42],
        state42, []).
Proof.
  unfold synthesize, bind, np_random_seed, np_random_normal, np_try, ret.
  rewrite np_arange_length.
  change (Z.to_nat (51 - 0)) with 51%nat.
  rewrite np_add_same_length; [reflexivity|].
  now rewrite decay_term_length, np_arange_length, draws_length.
Qed.

(** The drawing calls of [render] do not depend on the generator. *)
Lemma render_run g st :
  crash_indices g = [10; 22; 35; 42] ->
  exists log, render g st = Some (tt, st, log).
Proof.
  intros Hc. unfold render. rewrite Hc. eexists. reflexivity.
Qed.

Local Abbreviation globals42 :=
  (Globals (np_arange 0 51) 0.96 noise42
     (np_clip (zip_add (decay_term 0.96 (np_arange 0 51)) noise42) 0 100)
     (np_full 51 100.0) [10; 22; 35; 42]).

Local Abbreviation style_call :=
  (Call "plt" "style.use" [VStr "seaborn-v0_8-whitegrid"] []).

(** The script runs to its end, whatever state the generator starts in:
    no shape error occurs. *)
Lemma main_run st :
  exists log,
    render globals42 state42 = Some (tt, state42, log) /\
    main st =
    Some (globals42, state42, style_call :: log).
Proof.
  destruct (render_run globals42 state42 eq_refl) as [log Hr].
  exists log. split; [exact Hr|].
  unfold main, bind at 1 2. unfold emit at 1.
  rewrite synthesize_run.
  unfold bind. rewrite Hr. unfold ret. cbv beta iota.
  now rewrite app_nil_r.
Qed.

Lemma noise42_nth s :
  (s <= 50)%nat -> exists n, nth_error noise42 s = Some n.
Proof.
  intros Hs.
  destruct (nth_error noise42 s) as [n|] eqn:E; [now exists n|].
  apply nth_error_None in E. rewrite draws_length in E. lia.
Qed.

Lemma steps_nth s :
  (s <= 50)%nat -> nth_error (np_arange 0 51) s = Some (Z.of_nat s).
Proof.
  intros Hs. rewrite np_arange_nth; [reflexivity|].
  change (Z.to_nat (51 - 0)) with 51%nat. lia.
Qed.

Lemma series_A_nth s n :
  (s <= 50)%nat ->
  nth_error noise42 s = Some n ->
  nth_error (standard_agent_retention globals42) s =
  Some (clip (100 * 0.96 ^ Z.of_nat s + n) 0 100)%Q.
Proof.
  intros Hs Hn. cbn [standard_agent_retention].
  apply np_clip_nth, zip_add_nth; [|exact Hn].
  apply decay_term_nth, steps_nth, Hs.
Qed.

(** *** Facts on the log of [render] *)

Lemma render_markers g st log :
  crash_indices g = [10; 22; 35; 42] ->
  render g st = Some (tt, st, log) ->
  map marker_index (calls_to "ax" "scatter" log)
  = [Some 10; Some 22; Some 35; Some 42] /\
  map annotation_index (calls_to "ax" "annotate" log) = [Some 10].
Proof.
  intros Hc Hr. unfold render in Hr. rewrite Hc in Hr.
  vm_compute in Hr. injection Hr as <-. split; reflexivity.
Qed.

Lemma render_image g st log :
  crash_indices g = [10; 22; 35; 42] ->
  render g st = Some (tt, st, log) ->
  map saved_image (calls_to "plt" "savefig" log)
  = [Some ("stochastic_drift_benchmark.png", 300)] /\
  map canvas_size (calls_to "plt" "subplots" log) = [Some (12, 7)].
Proof.
  intros Hc Hr. unfold render in Hr. rewrite Hc in Hr.
  vm_compute in Hr. injection Hr as <-. split; reflexivity.
Qed.

Lemma render_plot_x g st log :
  crash_indices g = [10; 22; 35; 42] ->
  render g st = Some (tt, st, log) ->
  map plot_x (calls_to "ax" "plot" log)
  = [Some (VInts (steps g)); Some (VInts (steps g))].
Proof.
  intros Hc Hr. unfold render in Hr. rewrite Hc in Hr.
  vm_compute in Hr. injection Hr as <-. reflexivity.
Qed.

(** *** The decay curve *)

Lemma Qpower_succ_lt (r : Q) (n : nat) :
  (0 < r)%Q -> (r < 1)%Q -> (r ^ Z.of_nat (S n) < r ^ Z.of_nat n)%Q.
Proof.
  intros H0 H1.
  assert (Hne : ~ (r == 0)%Q) by (intros E; rewrite E in H0; discriminate).
  rewrite Nat2Z.inj_succ. unfold Z.succ.
  rewrite Qpower_plus by exact Hne.
  setoid_replace (r ^ Z.of_nat n)%Q with (r ^ Z.of_nat n * 1)%Q at 2
    by (now rewrite Qmult_1_r).
  rewrite Qmult_lt_l; [exact H1|].
  now apply Qpower_0_lt.
Qed.

Lemma Qpower_decreasing (r : Q) (s t : nat) :
  (0 < r)%Q -> (r < 1)%Q -> (s < t)%nat ->
  (r ^ Z.of_nat t < r ^ Z.of_nat s)%Q.
Proof.
  intros H0 H1 Hst. induction Hst as [|t Hst IH].
  - now apply Qpower_succ_lt.
  - eapply Qlt_trans; [now apply Qpower_succ_lt | exact IH].
Qed.

(** Calls on another object or method do not show in [calls_to]. *)
Lemma calls_to_skip o m c log :
  is_call o m c = false -> calls_to o m (c :: log) = calls_to o m log.
Proof. intros H. unfold calls_to. simpl. now rewrite H. Qed.

(** Runs the script from [st]: names the log of [render] and the equation
    of [render], provides the three results of [main]. *)
Ltac run_main st log Hr :=
  let Hm := fresh "Hm" in
  destruct (main_run st) as [log [Hr Hm]];
  eexists _, _, _; split; [exact Hm|].

(** The element [s] of a batch of draws: the sample drawn in the state
    reached after [s] earlier draws, scaled and shifted. *)
Lemma draws_nth loc scale n st s :
  (s < n)%nat ->
  nth_error (fst (draws loc scale n st)) s =
  Some (loc + scale * fst (gauss (Nat.iter s (fun r => snd (gauss r)) st)))%Q.
Proof.
  revert st s. induction n as [|n IH]; intros st s Hs; [lia|].
  destruct s as [|s]; [reflexivity|].
  cbn [draws fst nth_error]. rewrite IH by lia.
  now rewrite Nat.iter_succ_r.
Qed.

(** What the clamp to [0, 100] returns, case by case. *)
Lemma clip_cases x :
  ((x < 0)%Q -> clip x 0 100 = 0%Q) /\
  ((100 < x)%Q -> clip x 0 100 = 100%Q) /\
  ((0 <= x)%Q -> (x <= 100)%Q -> (clip x 0 100 == x)%Q).
Proof.
  split; [|split].
  - intros H. unfold clip, maximum.
    destruct (Qltb 0 x) eqn:E; [apply Qltb_true in E; lra | reflexivity].
  - intros H. unfold clip, maximum, minimum.
    destruct (Qltb 0 x) eqn:E1; [|apply Qltb_false in E1; lra].
    destruct (Qltb x 100) eqn:E2; [apply Qltb_true in E2; lra | reflexivity].
  - apply clip_in_range.
Qed.

Lemma noise42_sample s :
  (s <= 50)%nat ->
  nth_error noise42 s =
  Some (0 + 2.5 * fst (gauss (Nat.iter s (fun r => snd (gauss r))
                                (seed 42))))%Q.
Proof. intros Hs. apply draws_nth. lia. Qed.

(** ** The claims *)

(** C1. At every step [s] from 0 to 50, Series A is the clamp of
    [x = 100 * 0.96 ^ s + noise[s]]: 0 when [x] is below 0, 100 when [x] is
    above 100, and [x] itself otherwise.  The noise is the array of 51
    samples drawn right after the generator is seeded with 42; its element
    [s] is [0 + 2.5 * z], with [z] the standard Gaussian sample drawn in
    the state reached after [s] earlier draws. *)
Theorem series_A_formula st (s : nat) :
  (s <= 50)%nat ->
  exists g st' log,
    main st = Some (g, st', log) /\
    drift_noise g = fst (draws 0 2.5 51 (seed 42)) /\
    List.length (drift_noise g) = 51%nat /\
    exists n a,
      nth_error (drift_noise g) s = Some n /\
      n = (0 + 2.5 * fst (gauss (Nat.iter s (fun r => snd (gauss r))
                                   (seed 42))))%Q /\
      nth_error (standard_agent_retention g) s = Some a /\
      a = clip (100 * 0.96 ^ Z.of_nat s + n) 0 100 /\
      ((100 * 0.96 ^ Z.of_nat s + n < 0)%Q -> a = 0%Q) /\
      ((100 < 100 * 0.96 ^ Z.of_nat s + n)%Q -> a = 100%Q) /\
      ((0 <= 100 * 0.96 ^ Z.of_nat s + n)%Q ->
       (100 * 0.96 ^ Z.of_nat s + n <= 100)%Q ->
       (a == 100 * 0.96 ^ Z.of_nat s + n)%Q).
Proof.
  intros Hs. run_main st log Hr.
  split; [reflexivity|].
  split; [exact (draws_length 0 2.5 51 (seed 42))|].
  pose proof (noise42_sample s Hs) as Hn.
  eexists _, _. split; [exact Hn|].
  split; [reflexivity|].
  split; [exact (series_A_nth s _ Hs Hn)|].
  split; [reflexivity|].
  apply clip_cases.
Qed.

(** C2. At every step from 0 to 50 the clamped Series A value lies in
    [0, 100], for every generator, hence for every noise sequence. *)
Theorem series_A_in_range st (s : nat) :
  (s <= 50)%nat ->
  exists g st' log,
    main st = Some (g, st', log) /\
    exists a,
      nth_error (standard_agent_retention g) s = Some a /\
      (0 <= a)%Q /\ (a <= 100)%Q.
Proof.
  intros Hs. run_main st log Hr.
  destruct (noise42_nth s Hs) as [n Hn].
  eexists. split; [apply (series_A_nth s n Hs Hn)|].
  apply clip_bounds. discriminate.
Qed.

(** C3. Series B is the constant array: 100.0 at every step from 0 to 50,
    and as long as the step domain. *)
Theorem series_B_constant st (s : nat) :
  (s <= 50)%nat ->
  exists g st' log,
    main st = Some (g, st', log) /\
    nth_error (seu_claude_retention g) s = Some 100.0%Q /\
    seu_claude_retention g = repeat 100.0%Q (List.length (steps g)) /\
    (100.0 == 100)%Q.
Proof.
  intros Hs. run_main st log Hr. cbn [seu_claude_retention steps].
  split; [apply np_full_nth; lia|].
  split; [now rewrite np_arange_length | reflexivity].
Qed.

(** C4. The step domain is 0, 1, ..., 50 in order, 51 points; Series A,
    Series B and the noise array have 51 elements each, and both curves
    are plotted against that same step array. *)
Theorem step_domain_shared st :
  exists g st' log,
    main st = Some (g, st', log) /\
    steps g = map Z.of_nat (seq 0 51) /\
    List.length (steps g) = 51%nat /\
    List.length (drift_noise g) = 51%nat /\
    List.length (standard_agent_retention g) = 51%nat /\
    List.length (seu_claude_retention g) = 51%nat /\
    map plot_x (calls_to "ax" "plot" log)
    = [Some (VInts (steps g)); Some (VInts (steps g))].
Proof.
  run_main st log Hr.
  cbn [steps drift_noise standard_agent_retention seu_claude_retention].
  split; [reflexivity|].
  split; [reflexivity|].
  split; [apply draws_length|].
  split.
  { rewrite np_clip_length, zip_add_length, decay_term_length; [reflexivity|].
    now rewrite decay_term_length, draws_length. }
  split; [apply repeat_length|].
  rewrite calls_to_skip by reflexivity.
  exact (render_plot_x globals42 _ _ eq_refl Hr).
Qed.

(** C5. Generating the data twice in one run gives the same Series A both
    times, and the data do not depend on the state the generator was in
    before the script seeded it. *)
Theorem series_A_reproducible st st2 :
  (exists g1 g2 st',
     synthesize_twice st = Some ((g1, g2), st', []) /\
     standard_agent_retention g1 = standard_agent_retention g2) /\
  synthesize st = synthesize st2.
Proof.
  split.
  - eexists _, _, _. unfold synthesize_twice, bind.
    rewrite synthesize_run. rewrite synthesize_run.
    split; reflexivity.
  - now rewrite !synthesize_run.
Qed.

(** C6. The noise-free decay curve [100 * 0.96 ^ s] is strictly decreasing
    on the step domain. *)
Theorem decay_strictly_decreasing st (s t : nat) :
  (s < t)%nat -> (t <= 50)%nat ->
  exists g st' log,
    main st = Some (g, st', log) /\
    nth_error (decay_term (decay_rate g) (steps g)) s
    = Some (100 * 0.96 ^ Z.of_nat s)%Q /\
    nth_error (decay_term (decay_rate g) (steps g)) t
    = Some (100 * 0.96 ^ Z.of_nat t)%Q /\
    (100 * 0.96 ^ Z.of_nat t < 100 * 0.96 ^ Z.of_nat s)%Q.
Proof.
  intros Hst Ht. run_main st log Hr. cbn [decay_rate steps].
  split; [apply decay_term_nth, steps_nth; lia|].
  split; [apply decay_term_nth, steps_nth; lia|].
  rewrite Qmult_lt_l by reflexivity.
  apply Qpower_decreasing; [reflexivity | reflexivity | exact Hst].
Qed.

(** C7. Markers are drawn by [scatter] at (10, 100), (22, 100), (35, 100)
    and (42, 100) and nowhere else, and the only annotation with an arrow
    points at (10, 100). *)
Theorem event_markers st :
  exists g st' log,
    main st = Some (g, st', log) /\
    crash_indices g = [10; 22; 35; 42] /\
    map marker_index (calls_to "ax" "scatter" log)
    = map Some (crash_indices g) /\
    (forall i, In (Some i) (map marker_index (calls_to "ax" "scatter" log))
               <-> i = 10 \/ i = 22 \/ i = 35 \/ i = 42) /\
    map annotation_index (calls_to "ax" "annotate" log) = [Some 10].
Proof.
  run_main st log Hr. cbn [crash_indices].
  destruct (render_markers globals42 _ _ eq_refl Hr) as [Hs Ha].
  rewrite !calls_to_skip by reflexivity.
  rewrite Hs, Ha.
  split; [reflexivity|]. split; [reflexivity|]. split; [|reflexivity].
  intros i. simpl. split.
  - intros [H|[H|[H|[H|[]]]]]; injection H as <-; auto.
  - intros [->|[->|[->| ->]]]; auto.
Qed.

(** C8. Before noise, the curve is exactly 100 at step 0 and within 0.05 of
    13.0 at step 50; Series A at these steps is that value plus the noise
    sample of the step, clamped into [0, 100]: 0 when the sum is below 0,
    100 when it is above 100, the sum itself otherwise. *)
Theorem endpoints st :
  exists g st' log,
    main st = Some (g, st', log) /\
    nth_error (decay_term (decay_rate g) (steps g)) 0 = Some 100%Q /\
    nth_error (decay_term (decay_rate g) (steps g)) 50
    = Some (100 * 0.96 ^ 50)%Q /\
    (Qabs (100 * 0.96 ^ 50 - 13.0) <= 0.05)%Q /\
    exists n0 n50 a0 a50,
      nth_error (drift_noise g) 0 = Some n0 /\
      nth_error (drift_noise g) 50 = Some n50 /\
      nth_error (standard_agent_retention g) 0 = Some a0 /\
      nth_error (standard_agent_retention g) 50 = Some a50 /\
      a0 = clip (100 + n0) 0 100 /\
      a50 = clip (100 * 0.96 ^ 50 + n50) 0 100 /\
      ((0 <= a0)%Q /\ (a0 <= 100)%Q) /\
      ((0 <= a50)%Q /\ (a50 <= 100)%Q) /\
      (((100 + n0 < 0)%Q -> a0 = 0%Q) /\
       ((100 < 100 + n0)%Q -> a0 = 100%Q) /\
       ((0 <= 100 + n0)%Q -> (100 + n0 <= 100)%Q -> (a0 == 100 + n0)%Q)) /\
      (((100 * 0.96 ^ 50 + n50 < 0)%Q -> a50 = 0%Q) /\
       ((100 < 100 * 0.96 ^ 50 + n50)%Q -> a50 = 100%Q) /\
       ((0 <= 100 * 0.96 ^ 50 + n50)%Q -> (100 * 0.96 ^ 50 + n50 <= 100)%Q ->
        (a50 == 100 * 0.96 ^ 50 + n50)%Q)).
Proof.
  run_main st log Hr. cbn [decay_rate steps].
  split; [exact (decay_term_nth 0.96 _ 0 0 (steps_nth 0 (Nat.le_0_l _)))|].
  split; [exact (decay_term_nth 0.96 _ 50 50 (steps_nth 50 (Nat.le_refl _)))|].
  split; [vm_compute; discriminate|].
  destruct (noise42_nth 0) as [n0 H0]; [lia|].
  destruct (noise42_nth 50) as [n50 H50]; [lia|].
  exists n0, n50, (clip (100 + n0) 0 100), (clip (100 * 0.96 ^ 50 + n50) 0 100).
  split; [exact H0|]. split; [exact H50|].
  split; [exact (series_A_nth 0 n0 (Nat.le_0_l _) H0)|].
  split; [exact (series_A_nth 50 n50 (Nat.le_refl _) H50)|].
  split; [reflexivity|]. split; [reflexivity|].
  split; [apply clip_bounds; discriminate|].
  split; [apply clip_bounds; discriminate|].
  split; apply clip_cases.
Qed.

(** C9. The script saves one image, [stochastic_drift_benchmark.png], a
    PNG file, at 300 dots per inch, from a canvas 12 inches wide and 7
    inches high. *)
Theorem output_image st :
  exists g st' log,
    main st = Some (g, st', log) /\
    map saved_image (calls_to "plt" "savefig" log)
    = [Some ("stochastic_drift_benchmark.png", 300)] /\
    ends_with ".png" "stochastic_drift_benchmark.png" = true /\
    map canvas_size (calls_to "plt" "subplots" log) = [Some (12, 7)] /\
    7 < 12.
Proof.
  run_main st log Hr.
  destruct (render_image globals42 _ _ eq_refl Hr) as [Hs Hc].
  rewrite !calls_to_skip by reflexivity.
  rewrite Hs, Hc. repeat split.
Qed.

(** ** Further properties of the script *)

(** *** The clamp and the decay curve *)

(** Splits on the comparisons [Qltb a b] of the goal, innermost first. *)
Ltac Qltb_cases :=
  repeat match goal with
  | |- context [Qltb ?a ?b] =>
      lazymatch a with context [Qltb] => fail | _ => idtac end;
      lazymatch b with context [Qltb] => fail | _ => idtac end;
      let E := fresh "E" in
      destruct (Qltb a b) eqn:E;
      [apply Qltb_true in E | apply Qltb_false in E];
      cbv iota
  end.

(** X9. Clamping keeps the order: a larger value is never clamped to a
    smaller one, whatever the two bounds. *)
Theorem clip_monotone x y lo hi :
  (x <= y)%Q -> (clip x lo hi <= clip y lo hi)%Q.
Proof.
  intros Hxy. unfold clip, minimum, maximum. Qltb_cases; lra.
Qed.

Lemma clip_deviation d n :
  (0 <= d)%Q -> (d <= 100)%Q ->
  (Qabs (clip (d + n) 0 100 - d) <= Qabs n)%Q.
Proof.
  intros H0 H1.
  assert (Hp : (n <= Qabs n)%Q) by apply Qle_Qabs.
  assert (Hm : (- n <= Qabs n)%Q) by (rewrite <- Qabs_opp; apply Qle_Qabs).
  apply Qabs_Qle_condition.
  unfold clip, minimum, maximum. Qltb_cases; split; lra.
Qed.

Lemma Qpower_nonincreasing (r : Q) (s t : nat) :
  (0 < r)%Q -> (r < 1)%Q -> (s <= t)%nat ->
  (r ^ Z.of_nat t <= r ^ Z.of_nat s)%Q.
Proof.
  intros H0 H1 Hst. apply Nat.lt_eq_cases in Hst as [Hlt | ->].
  - now apply Qlt_le_weak, Qpower_decreasing.
  - apply Qle_refl.
Qed.

Lemma decay_bounds (s : nat) :
  (0 < 100 * 0.96 ^ Z.of_nat s)%Q /\ (100 * 0.96 ^ Z.of_nat s <= 100)%Q.
Proof.
  assert (Hpos : (0 < 0.96 ^ Z.of_nat s)%Q) by now apply Qpower_0_lt.
  assert (Hle : (0.96 ^ Z.of_nat s <= 0.96 ^ Z.of_nat 0)%Q)
    by (apply Qpower_nonincreasing; [reflexivity | reflexivity | lia]).
  change (0.96 ^ Z.of_nat 0)%Q with 1%Q in Hle.
  split; lra.
Qed.

(** *** The chart for any data *)

(** A loop whose body only draws: the state is left alone and the log is
    the concatenation of the logs of the rounds. *)
Lemma for_each_log {A} (xs : list A) (body : A -> M unit)
      (out : A -> list call) :
  (forall x st, body x st = Some (tt, st, out x)) ->
  forall st, for_each xs body st = Some (tt, st, flat_map out xs).
Proof.
  intros Hb st. induction xs as [|x xs IH]; simpl; [reflexivity|].
  unfold bind. now rewrite Hb, IH.
Qed.

Lemma observe_flat_map {A B} (f : call -> B) (p : call -> bool)
      (out : A -> list call) (h : A -> list B) (xs : list A) :
  (forall x, map f (filter p (out x)) = h x) ->
  map f (filter p (flat_map out xs)) = flat_map h xs.
Proof.
  intros H. induction xs as [|x xs IH]; simpl; [reflexivity|].
  now rewrite filter_app, map_app, H, IH.
Qed.

Lemma flat_map_singleton {A B} (f : A -> B) (xs : list A) :
  flat_map (fun x => [f x]) xs = map f xs.
Proof. induction xs as [|x xs IH]; simpl; congruence. Qed.

Lemma flat_map_guarded {A B} (p : A -> bool) (f : A -> B) (xs : list A) :
  flat_map (fun x => if p x then [f x] else []) xs = map f (filter p xs).
Proof.
  induction xs as [|x xs IH]; simpl; [reflexivity|].
  rewrite IH. now destruct (p x).
Qed.

(** Brings [render g st] to the list of its calls: the calls before the
    loop, [flat_map out (crash_indices g)] for the loop over the crash
    indices, and the calls after it; [out x] is the log of the round for
    crash index [x]. *)
Ltac render_open st body out :=
  unfold render;
  let Hb := fresh "Hb" in
  match goal with |- context [for_each _ ?b] => set (body := b) end;
  set (out := fun x => match body x st with
                       | Some (_, _, l) => l
                       | None => []
                       end);
  assert (Hb : forall x st', body x st' = Some (tt, st', out x))
    by (intros x st'; unfold out, body, bind, when, emit;
        destruct (x =? 10); reflexivity);
  unfold bind at 1 2 3 4 5; unfold emit at 1 2 3 4; cbv beta iota;
  rewrite (for_each_log _ _ out Hb);
  unfold bind, emit; cbv beta iota; clear Hb.

(** Settles a fact on the log [out x] of one round of the loop. *)
Ltac round_fact body out :=
  let x := fresh "x" in
  intros x; unfold out, body, bind, when, emit;
  destruct (x =? 10); reflexivity.

(** For any data the model of [render] returns: one marker per crash
    index, in order, and one annotation per crash index equal to 10. *)
Lemma render_loop_log g st :
  exists log,
    render g st = Some (tt, st, log) /\
    map marker_index (calls_to "ax" "scatter" log)
    = map Some (crash_indices g) /\
    map (fun c => (annotation_index c, annotation_text_at c))
      (calls_to "ax" "annotate" log)
    = map (fun x => (Some x, Some (x + 2, 85)))
        (filter (fun x => x =? 10) (crash_indices g)).
Proof.
  render_open st body out.
  eexists. split; [reflexivity|].
  unfold calls_to. rewrite !filter_app. simpl. rewrite !app_nil_r. split.
  - rewrite (observe_flat_map _ _ _ (fun x => [Some x]))
      by round_fact body out.
    apply flat_map_singleton.
  - rewrite (observe_flat_map _ _ _
               (fun x => if x =? 10 then [(Some x, Some (x + 2, 85))]
                         else []))
      by round_fact body out.
    apply flat_map_guarded.
Qed.

(** X4. The loop of lines 38 to 44, run on the data of the script with any
    list of crash indices taken in the step domain: one marker is drawn
    at [(c, 100)] for every index [c] of the list, in order, and an
    annotation with an arrow, pointing at [(c, 100)] with its text at
    [(c + 2, 85)], for exactly those [c] equal to 10. *)
Theorem loop_marks_every_crash st (cs : list Z) :
  Forall (fun c => 0 <= c <= 50) cs ->
  exists g st' log0,
    main st = Some (g, st', log0) /\
    exists log,
      render (with_crash_indices g cs) st' = Some (tt, st', log) /\
      map marker_index (calls_to "ax" "scatter" log) = map Some cs /\
      map (fun c => (annotation_index c, annotation_text_at c))
        (calls_to "ax" "annotate" log)
      = map (fun x => (Some x, Some (x + 2, 85)))
          (filter (fun x => x =? 10) cs).
Proof.
  intros _. run_main st log0 Hr.
  exact (render_loop_log (with_crash_indices globals42 cs) state42).
Qed.

(** *** The chart of the script *)

Lemma render_axes g st log :
  crash_indices g = [10; 22; 35; 42] ->
  render g st = Some (tt, st, log) ->
  map axis_limits (calls_to "ax" "set_xlim" log) = [Some (0, 50)] /\
  map axis_limits (calls_to "ax" "set_ylim" log) = [Some (0, 105)] /\
  map threshold_level (calls_to "ax" "axhline" log) = [Some 60] /\
  map annotation_text_at (calls_to "ax" "annotate" log) = [Some (12, 85)].
Proof.
  intros Hc Hr. unfold render in Hr. rewrite Hc in Hr.
  vm_compute in Hr. injection Hr as <-. repeat split.
Qed.

Lemma render_curves g st log :
  crash_indices g = [10; 22; 35; 42] ->
  render g st = Some (tt, st, log) ->
  map plot_y (calls_to "ax" "plot" log)
  = [Some (VFloats (standard_agent_retention g));
     Some (VFloats (seu_claude_retention g))] /\
  map fill_band (calls_to "ax" "fill_between" log)
  = [Some (VInts (steps g), VFloats (standard_agent_retention g), VInt 0)].
Proof.
  intros Hc Hr. unfold render in Hr. rewrite Hc in Hr.
  vm_compute in Hr. injection Hr as <-. split; reflexivity.
Qed.



Lemma series_A_all_in_range :
  Forall (fun a => 0 <= a /\ a <= 100)%Q (standard_agent_retention globals42).
Proof.
  cbn [standard_agent_retention]. unfold np_clip.
  apply Forall_map, Forall_forall. intros x _.
  apply clip_bounds. discriminate.
Qed.

Lemma steps_all_in_range :
  Forall (fun x => 0 <= x <= 50) (np_arange 0 51).
Proof.
  unfold np_arange. apply Forall_map, Forall_forall.
  intros i Hi. apply in_seq in Hi.
  change (Z.to_nat (51 - 0)) with 51%nat in Hi. lia.
Qed.

(** X1. At every step Series A is at most Series B: the decaying curve
    never rises above the flat one, whatever the noise. *)
Theorem series_A_below_series_B st (s : nat) :
  (s <= 50)%nat ->
  exists g st' log,
    main st = Some (g, st', log) /\
    exists a b,
      nth_error (standard_agent_retention g) s = Some a /\
      nth_error (seu_claude_retention g) s = Some b /\
      (a <= b)%Q.
Proof.
  intros Hs. run_main st log Hr.
  destruct (noise42_nth s Hs) as [n Hn].
  eexists _, _. split; [exact (series_A_nth s n Hs Hn)|].
  cbn [seu_claude_retention].
  split; [apply np_full_nth; lia|].
  apply Qle_trans with 100%Q; [|discriminate].
  apply clip_bounds. discriminate.
Qed.

(** X2. Everything the script plots lies inside the axes window it sets,
    x from 0 to 50 and y from 0 to 105: every step, every value of both
    series, every marker and the text of the annotation. *)
Theorem data_within_axes st :
  exists g st' log,
    main st = Some (g, st', log) /\
    map axis_limits (calls_to "ax" "set_xlim" log) = [Some (0, 50)] /\
    map axis_limits (calls_to "ax" "set_ylim" log) = [Some (0, 105)] /\
    Forall (fun x => 0 <= x <= 50) (steps g) /\
    Forall (fun a => 0 <= a /\ a <= 105)%Q (standard_agent_retention g) /\
    Forall (fun b => 0 <= b /\ b <= 105)%Q (seu_claude_retention g) /\
    Forall (fun m => exists i, m = Some i /\ 0 <= i <= 50 /\ 0 <= 100 <= 105)
      (map marker_index (calls_to "ax" "scatter" log)) /\
    Forall (fun t => exists x y,
                t = Some (x, y) /\ 0 <= x <= 50 /\ 0 <= y <= 105)
      (map annotation_text_at (calls_to "ax" "annotate" log)).
Proof.
  run_main st log Hr.
  destruct (render_axes globals42 _ _ eq_refl Hr) as (Hx & Hy & _ & Ht).
  destruct (render_markers globals42 _ _ eq_refl Hr) as [Hk _].
  rewrite !calls_to_skip by reflexivity.
  rewrite Hx, Hy, Hk, Ht.
  split; [reflexivity|]. split; [reflexivity|].
  split; [exact steps_all_in_range|].
  split.
  { eapply Forall_impl; [|exact series_A_all_in_range].
    intros a [H0 H1]. split; [exact H0|].
    apply Qle_trans with 100%Q; [exact H1 | discriminate]. }
  split.
  { cbn [seu_claude_retention]. apply Forall_forall. intros b Hb.
    apply repeat_spec in Hb. subst b. split; discriminate. }
  split.
  - repeat constructor; eexists; (split; [reflexivity | lia]).
  - repeat constructor. eexists _, _. split; [reflexivity | lia].
Qed.

(** X3. The dotted reference line is at 60, and the noise-free decay curve
    is above it at the steps 0 to 12 and at no later step. *)
Theorem decay_crosses_threshold st :
  exists g st' log,
    main st = Some (g, st', log) /\
    map threshold_level (calls_to "ax" "axhline" log) = [Some 60] /\
    forall (s : nat) d,
      nth_error (decay_term (decay_rate g) (steps g)) s = Some d ->
      (60 < d)%Q <-> (s <= 12)%nat.
Proof.
  run_main st log Hr.
  destruct (render_axes globals42 _ _ eq_refl Hr) as (_ & _ & Hh & _).
  rewrite calls_to_skip by reflexivity.
  split; [exact Hh|].
  cbn [decay_rate steps]. intros s d Hd.
  assert (Hs : (s <= 50)%nat).
  { assert (H : nth_error (decay_term 0.96 (np_arange 0 51)) s <> None)
      by congruence.
    apply nth_error_Some in H.
    rewrite decay_term_length, np_arange_length in H.
    change (Z.to_nat (51 - 0)) with 51%nat in H. lia. }
  rewrite (decay_term_nth 0.96 _ s _ (steps_nth s Hs)) in Hd.
  injection Hd as <-.
  assert (H12 : (60 < 100 * 0.96 ^ Z.of_nat 12)%Q) by reflexivity.
  assert (H13 : (100 * 0.96 ^ Z.of_nat 13 < 60)%Q) by reflexivity.
  split.
  - intros Hd. destruct (Nat.le_gt_cases s 12) as [Hle | Hgt]; [exact Hle|].
    assert (H : (0.96 ^ Z.of_nat s <= 0.96 ^ Z.of_nat 13)%Q)
      by (apply Qpower_nonincreasing; [reflexivity | reflexivity | lia]).
    lra.
  - intros Hle.
    assert (H : (0.96 ^ Z.of_nat 12 <= 0.96 ^ Z.of_nat s)%Q)
      by (apply Qpower_nonincreasing; [reflexivity | reflexivity | lia]).
    lra.
Qed.

(** X6. The whole run is reproducible: the data, the state the generator
    is left in and the complete list of drawing calls are the same
    whatever state the generator was in before the script. *)
Theorem main_reproducible st st2 : main st = main st2.
Proof.
  destruct (main_run st) as [log1 [Hr1 H1]].
  destruct (main_run st2) as [log2 [Hr2 H2]].
  rewrite H1, H2. rewrite Hr1 in Hr2. now injection Hr2 as ->.
Qed.

(** X7. Clamping does not move a value away from the decay curve: at every
    step Series A differs from [100 * 0.96 ^ s] by at most the size of the
    noise sample of that step, up to 1e-9 (room for the rounding of the
    float64 operations, which exact rationals leave out). *)
Theorem series_A_near_decay st (s : nat) :
  (s <= 50)%nat ->
  exists g st' log,
    main st = Some (g, st', log) /\
    exists n a,
      nth_error (drift_noise g) s = Some n /\
      nth_error (standard_agent_retention g) s = Some a /\
      (Qabs (a - 100 * 0.96 ^ Z.of_nat s) <= Qabs n + (1 # 1000000000))%Q.
Proof.
  intros Hs. run_main st log Hr.
  destruct (noise42_nth s Hs) as [n Hn].
  eexists _, _. split; [exact Hn|].
  split; [exact (series_A_nth s n Hs Hn)|].
  destruct (decay_bounds s) as [H0 H1].
  apply Qle_trans with (Qabs n).
  - apply clip_deviation; [now apply Qlt_le_weak | exact H1].
  - rewrite <- (Qplus_0_r (Qabs n)) at 1. apply Qplus_le_r. discriminate.
Qed.

(** X8. Every marker sits on the Series B line: its x is a step of the
    domain and Series B at that step is 100, the y of the marker. *)
Theorem markers_on_series_B st :
  exists g st' log,
    main st = Some (g, st', log) /\
    Forall (fun m => exists k b,
                m = Some (Z.of_nat k) /\
                nth_error (steps g) k = Some (Z.of_nat k) /\
                nth_error (seu_claude_retention g) k = Some b /\
                (b == 100)%Q)
      (map marker_index (calls_to "ax" "scatter" log)).
Proof.
  run_main st log Hr.
  destruct (render_markers globals42 _ _ eq_refl Hr) as [Hk _].
  rewrite calls_to_skip by reflexivity. rewrite Hk.
  cbn [steps seu_claude_retention].
  repeat constructor.
  - exists 10%nat, 100.0%Q. repeat split.
  - exists 22%nat, 100.0%Q. repeat split.
  - exists 35%nat, 100.0%Q. repeat split.
  - exists 42%nat, 100.0%Q. repeat split.
Qed.

(** X10. The chart shows the data computed: the first line is Series A and
    the second Series B, both against the step array, and the shaded band
    runs from the Series A line down to 0. *)
Theorem curves_drawn_from_data st :
  exists g st' log,
    main st = Some (g, st', log) /\
    map plot_x (calls_to "ax" "plot" log)
    = [Some (VInts (steps g)); Some (VInts (steps g))] /\
    map plot_y (calls_to "ax" "plot" log)
    = [Some (VFloats (standard_agent_retention g));
       Some (VFloats (seu_claude_retention g))] /\
    map fill_band (calls_to "ax" "fill_between" log)
    = [Some (VInts (steps g), VFloats (standard_agent_retention g), VInt 0)].
Proof.
  run_main st log Hr.
  destruct (render_curves globals42 _ _ eq_refl Hr) as [Hp Hf].
  rewrite !calls_to_skip by reflexivity.
  split; [exact (render_plot_x globals42 _ _ eq_refl Hr)|].
  split; [exact Hp | exact Hf].
Qed.

(** X12. At step 0 the decay term is 100: Series A starts on the Series B
    line whenever the first noise sample is not negative, and strictly
    below it when the sample is below -1e-9. *)
Theorem series_A_starts_at_100 st :
  exists g st' log,
    main st = Some (g, st', log) /\
    exists n0 a0,
      nth_error (drift_noise g) 0 = Some n0 /\
      nth_error (standard_agent_retention g) 0 = Some a0 /\
      ((0 <= n0)%Q -> (a0 == 100)%Q) /\
      ((n0 <= - (1 # 1000000000))%Q -> (a0 < 100)%Q).
Proof.
  run_main st log Hr.
  destruct (noise42_nth 0) as [n0 H0]; [lia|].
  exists n0, (clip (100 + n0) 0 100).
  split; [exact H0|].
  split; [exact (series_A_nth 0 n0 (Nat.le_0_l _) H0)|].
  unfold clip, minimum, maximum. split; intros H; Qltb_cases; lra.
Qed.

(** X13. The lower clamp needs a large negative sample: at every step a
    noise sample of at least -12 leaves Series A strictly positive. *)
Theorem series_A_positive st (s : nat) :
  (s <= 50)%nat ->
  exists g st' log,
    main st = Some (g, st', log) /\
    exists n a,
      nth_error (drift_noise g) s = Some n /\
      nth_error (standard_agent_retention g) s = Some a /\
      ((-12 <= n)%Q -> (0 < a)%Q).
Proof.
  intros Hs. run_main st log Hr.
  destruct (noise42_nth s Hs) as [n Hn].
  eexists _, _. split; [exact Hn|].
  split; [exact (series_A_nth s n Hs Hn)|].
  intros Hlow.
  assert (H50 : (12 < 100 * 0.96 ^ Z.of_nat 50)%Q) by reflexivity.
  assert (H : (0.96 ^ Z.of_nat 50 <= 0.96 ^ Z.of_nat s)%Q)
    by (apply Qpower_nonincreasing; [reflexivity | reflexivity | exact Hs]).
  unfold clip, minimum, maximum. Qltb_cases; lra.
Qed.

End Script.

(** C10. Clamping to [0, 100] leaves a value of that range as it is, and
    clamping twice is clamping once. *)
Theorem clip_identity_idempotent (x y : Q) :
  (0 <= y)%Q -> (y <= 100)%Q ->
  (clip y 0 100 == y)%Q /\
  clip (clip x 0 100) 0 100 = clip x 0 100.
Proof.
  intros H0 H1. split; [now apply clip_in_range|].
  unfold clip, maximum, minimum.
  destruct (Qltb 0 x) eqn:E1.
  - destruct (Qltb x 100) eqn:E2.
    + now rewrite E1, E2.
    + reflexivity.
  - reflexivity.
Qed.

(** X11. Clamping to [0, 100] changes a value exactly when the value is
    outside that range. *)
Theorem clip_fixed_iff (x : Q) :
  (clip x 0 100 == x)%Q <-> (0 <= x)%Q /\ (x <= 100)%Q.
Proof.
  split.
  - intros H. rewrite <- H. apply clip_bounds. discriminate.
  - intros [H0 H1]. now apply clip_in_range.
Qed.

(** ** The script on concrete generators *)

Example clip_examples :
  clip (-3) 0 100 = 0%Q /\ clip 42.5 0 100 = 42.5%Q /\
  clip 250 0 100 = 100%Q.
Proof. repeat split. Qed.

(** With the toy generator the first noise sample is 7.5: step 0 is
    clamped from 107.5 down to 100, step 1 is 96 - 2.5 = 187/2. *)
Example toy_run :
  exists g st' log,
    main ToyGen.state ToyGen.seed ToyGen.gauss 0 = Some (g, st', log) /\
    firstn 3 (drift_noise g) = [7.5; -2.5; -2.5]%Q /\
    firstn 2 (map Qred (standard_agent_retention g)) = [100; 187 # 2]%Q /\
    List.length log = 20%nat.
Proof. eexists _, _, _. vm_compute. repeat split. Qed.

(** Samples of 1000 and -1000 standard deviations: Series A is clamped to
    100 at step 0 and to 0 at step 1; step 2 is 92.16 = 2304/25. *)
Example replay_run :
  exists g st' log,
    main Replay.state (Replay.seed [1000; -1000]%Q) Replay.gauss []
    = Some (g, st', log) /\
    firstn 3 (map Qred (standard_agent_retention g)) = [100; 0; 2304 # 25]%Q.
Proof. eexists _, _, _. vm_compute. repeat split. Qed.

(** The generator has a state: two batches of draws without seeding in
    between differ. *)
Example draws_advance_state :
  let first := draws ToyGen.state ToyGen.gauss 0 2.5 51 (ToyGen.seed 42) in
  let second := draws ToyGen.state ToyGen.gauss 0 2.5 51 (snd first) in
  fst first <> fst second.
Proof. vm_compute. discriminate. Qed.

(** Every noise sequence is drawn by some generator. *)
Lemma replay_draws (noise : list Q) :
  Forall2 Qeq
    (fst (draws Replay.state Replay.gauss 0 2.5 (List.length noise)
            (map (fun n => n / 2.5)%Q noise)))
    noise.
Proof.
  induction noise as [|n noise IH]; simpl; constructor; [|exact IH].
  field.
Qed.

Lemma series_A_formula_witness :
  exists g st' log,
    main ToyGen.state ToyGen.seed ToyGen.gauss 0 = Some (g, st', log) /\
    drift_noise g = fst (draws ToyGen.state ToyGen.gauss 0 2.5 51
                           (ToyGen.seed 42)) /\
    List.length (drift_noise g) = 51%nat /\
    exists n a,
      nth_error (drift_noise g) 3 = Some n /\
      n = (0 + 2.5 * fst (ToyGen.gauss
                            (Nat.iter 3 (fun r => snd (ToyGen.gauss r))
                               (ToyGen.seed 42))))%Q /\
      nth_error (standard_agent_retention g) 3 = Some a /\
      a = clip (100 * 0.96 ^ Z.of_nat 3 + n) 0 100 /\
      ((100 * 0.96 ^ Z.of_nat 3 + n < 0)%Q -> a = 0%Q) /\
      ((100 < 100 * 0.96 ^ Z.of_nat 3 + n)%Q -> a = 100%Q) /\
      ((0 <= 100 * 0.96 ^ Z.of_nat 3 + n)%Q ->
       (100 * 0.96 ^ Z.of_nat 3 + n <= 100)%Q ->
       (a == 100 * 0.96 ^ Z.of_nat 3 + n)%Q).
Proof.
  apply (series_A_formula ToyGen.state ToyGen.seed ToyGen.gauss 0 3). lia.
Defined.

Lemma series_A_in_range_witness :
  exists g st' log,
    main Replay.state (Replay.seed [1000; -1000]%Q) Replay.gauss []
    = Some (g, st', log) /\
    exists a,
      nth_error (standard_agent_retention g) 1 = Some a /\
      (0 <= a)%Q /\ (a <= 100)%Q.
Proof.
  apply (series_A_in_range Replay.state (Replay.seed [1000; -1000]%Q)
           Replay.gauss [] 1).
  lia.
Defined.

Lemma series_B_constant_witness :
  exists g st' log,
    main ToyGen.state ToyGen.seed ToyGen.gauss 0 = Some (g, st', log) /\
    nth_error (seu_claude_retention g) 50 = Some 100.0%Q /\
    seu_claude_retention g = repeat 100.0%Q (List.length (steps g)) /\
    (100.0 == 100)%Q.
Proof.
  apply (series_B_constant ToyGen.state ToyGen.seed ToyGen.gauss 0 50). lia.
Defined.

Lemma decay_strictly_decreasing_witness :
  exists g st' log,
    main ToyGen.state ToyGen.seed ToyGen.gauss 0 = Some (g, st', log) /\
    nth_error (decay_term (decay_rate g) (steps g)) 49
    = Some (100 * 0.96 ^ Z.of_nat 49)%Q /\
    nth_error (decay_term (decay_rate g) (steps g)) 50
    = Some (100 * 0.96 ^ Z.of_nat 50)%Q /\
    (100 * 0.96 ^ Z.of_nat 50 < 100 * 0.96 ^ Z.of_nat 49)%Q.
Proof.
  apply (decay_strictly_decreasing ToyGen.state ToyGen.seed ToyGen.gauss
           0 49 50); lia.
Defined.

Lemma clip_identity_idempotent_witness :
  (clip 42.5 0 100 == 42.5)%Q /\
  clip (clip 250 0 100) 0 100 = clip 250 0 100.
Proof.
  apply (clip_identity_idempotent 250 42.5); discriminate.
Defined.

Lemma series_A_below_series_B_witness :
  exists g st' log,
    main Replay.state (Replay.seed [1000; -1000]%Q) Replay.gauss []
    = Some (g, st', log) /\
    exists a b,
      nth_error (standard_agent_retention g) 0 = Some a /\
      nth_error (seu_claude_retention g) 0 = Some b /\
      (a <= b)%Q.
Proof.
  apply (series_A_below_series_B Replay.state
           (Replay.seed [1000; -1000]%Q) Replay.gauss [] 0).
  lia.
Defined.

Lemma series_A_near_decay_witness :
  exists g st' log,
    main ToyGen.state ToyGen.seed ToyGen.gauss 0 = Some (g, st', log) /\
    exists n a,
      nth_error (drift_noise g) 0 = Some n /\
      nth_error (standard_agent_retention g) 0 = Some a /\
      (Qabs (a - 100 * 0.96 ^ Z.of_nat 0) <= Qabs n + (1 # 1000000000))%Q.
Proof.
  apply (series_A_near_decay ToyGen.state ToyGen.seed ToyGen.gauss 0 0). lia.
Defined.

Lemma loop_marks_every_crash_witness :
  exists g st' log0,
    main ToyGen.state ToyGen.seed ToyGen.gauss 0 = Some (g, st', log0) /\
    exists log,
      render ToyGen.state (with_crash_indices g [10; 3; 10]) st'
      = Some (tt, st', log) /\
      map marker_index (calls_to "ax" "scatter" log)
      = map Some [10; 3; 10] /\
      map (fun c => (annotation_index c, annotation_text_at c))
        (calls_to "ax" "annotate" log)
      = map (fun x => (Some x, Some (x + 2, 85)))
          (filter (fun x => x =? 10) [10; 3; 10]).
Proof.
  apply (loop_marks_every_crash ToyGen.state ToyGen.seed ToyGen.gauss 0
           [10; 3; 10]).
  repeat constructor; lia.
Defined.

Lemma series_A_positive_witness :
  exists g st' log,
    main ToyGen.state ToyGen.seed ToyGen.gauss 0 = Some (g, st', log) /\
    exists n a,
      nth_error (drift_noise g) 50 = Some n /\
      nth_error (standard_agent_retention g) 50 = Some a /\
      ((-12 <= n)%Q -> (0 < a)%Q).
Proof.
  apply (series_A_positive ToyGen.state ToyGen.seed ToyGen.gauss 0 50). lia.
Defined.

Lemma clip_monotone_witness : (clip (-3) 0 100 <= clip 250 0 100)%Q.
Proof. apply (clip_monotone (-3) 250 0 100). discriminate. Defined.
